(** * AutoDD: the KPI, scoring and diagnosis engine of [app.py]

    A shallow embedding of the calculation block of [src/app.py] (the body of
    [if submitted:], lines 47-157), of the radar chart data and of the two
    report paragraphs computed from it (lines 183 and 203), and the
    properties the specification states about it (C1 to C10) or the code
    shows by itself (X1 to X15).

    Numbers.  The form fields are Python floats; they are modelled here by
    exact rationals ([Q]), so every statement below is about the arithmetic
    the code writes down, without binary rounding.  Equality of numbers is
    [Qeq] ([==]).  Python's [None] (and pandas' NaN for a missing cell) is
    [None] of an [option]. *)

From Stdlib Require Import QArith Qminmax Qround Qabs ZArith.
From Stdlib Require Import List String Ascii Bool Lia Lqa DecimalString.
Import ListNotations.

Open Scope string_scope.
Open Scope Q_scope.

(** ** Python dictionaries

    [kpis] and [benchmarks] are dicts with string keys.  Insertion order is
    observable ([df.iterrows()] walks the rows in that order), so a dict is
    an association list: [set] overwrites in place or appends, [get] is
    [None] where Python raises [KeyError]. *)
Module Dict.

Definition t (V : Type) : Type := list (string * V).

Definition empty {V : Type} : t V := [].

Fixpoint set {V : Type} (d : t V) (k : string) (v : V) : t V :=
  match d with
  | [] => [(k, v)]
  | (k', v') :: d' =>
      if String.eqb k' k then (k', v) :: d' else (k', v') :: set d' k v
  end.

Fixpoint get {V : Type} (d : t V) (k : string) : option V :=
  match d with
  | [] => None
  | (k', v') :: d' => if String.eqb k' k then Some v' else get d' k
  end.

Definition keys {V : Type} (d : t V) : list string := map fst d.

End Dict.

(** Sequencing of computations that may raise. *)
Definition bind {A B : Type} (m : option A) (k : A -> option B) : option B :=
  match m with
  | Some a => k a
  | None => None
  end.

Notation "x <- m ;; k" := (bind m (fun x => k))
  (at level 61, m at next level, right associativity).

(** ** The form (lines 25-44)

    Ten [st.number_input] fields, each with [min_value=0.0], and the company
    name. *)
Record Form : Type := mkForm {
  company_name : string;
  receita : Q;
  lucro_bruto : Q;
  ebitda : Q;
  lucro_liquido : Q;
  ativo_total : Q;
  passivo_total : Q;
  patrimonio_liquido : Q;
  divida_liquida : Q;
  ativo_circ : Q;
  passivo_circ : Q
}.

(** What [min_value=0.0] guarantees of a submitted form. *)
Definition nonneg (f : Form) : Prop :=
  0 <= receita f /\ 0 <= lucro_bruto f /\ 0 <= ebitda f /\
  0 <= lucro_liquido f /\ 0 <= ativo_total f /\ 0 <= passivo_total f /\
  0 <= patrimonio_liquido f /\ 0 <= divida_liquida f /\
  0 <= ativo_circ f /\ 0 <= passivo_circ f.

(** Truth value of a number in a condition: [if x] holds unless [x] is 0. *)
Definition truthy (x : Q) : bool := negb (Qeq_bool x 0).

(** [a < b] as a test. *)
Definition Qltb (a b : Q) : bool := negb (Qle_bool b a).

(** ** KPIs (lines 50-57) *)
Definition kpis (f : Form) : Dict.t (option Q) :=
  let kpis := Dict.empty in
  let kpis := Dict.set kpis "Margem Bruta"
    (if truthy (receita f) then Some (lucro_bruto f / receita f) else None) in
  let kpis := Dict.set kpis "Margem EBITDA"
    (if truthy (receita f) then Some (ebitda f / receita f) else None) in
  let kpis := Dict.set kpis "Margem Líquida"
    (if truthy (receita f) then Some (lucro_liquido f / receita f) else None) in
  let kpis := Dict.set kpis "ROE"
    (if truthy (patrimonio_liquido f)
     then Some (lucro_liquido f / patrimonio_liquido f) else None) in
  let kpis := Dict.set kpis "ROA"
    (if truthy (ativo_total f)
     then Some (lucro_liquido f / ativo_total f) else None) in
  let kpis := Dict.set kpis "Dívida/PL"
    (if truthy (patrimonio_liquido f)
     then Some (divida_liquida f / patrimonio_liquido f) else None) in
  let kpis := Dict.set kpis "Liquidez Corrente"
    (if truthy (ativo_circ f) && truthy (passivo_circ f)
     then Some (ativo_circ f / passivo_circ f) else None) in
  kpis.

(** ** Benchmarks (lines 60-68) *)
Definition benchmarks : Dict.t Q :=
  [ ("Margem Bruta", 0.40);
    ("Margem EBITDA", 0.20);
    ("Margem Líquida", 0.10);
    ("ROE", 0.15);
    ("ROA", 0.07);
    ("Dívida/PL", 1.0);
    ("Liquidez Corrente", 1.5) ].

(** ** The data frame (lines 71-74)

    One row per key of [kpis], in insertion order.  A cell is [None] where
    pandas holds NaN: a [None] value, a key missing from [benchmarks], and
    whatever is computed from such a cell.  Every benchmark is a non-zero
    constant, so the division of line 73 never has a zero divisor. *)
Record Row : Type := mkRow {
  Valor : option Q;
  Benchmark : option Q;
  Desvio : option Q;
  Valor_pct : option Q
}.

Definition DataFrame : Type := list (string * Row).

Definition cell2 (op : Q -> Q -> Q) (a b : option Q) : option Q :=
  match a, b with
  | Some x, Some y => Some (op x y)
  | _, _ => None
  end.

Definition cell1 (op : Q -> Q) (a : option Q) : option Q :=
  match a with
  | Some x => Some (op x)
  | None => None
  end.

Definition df (kpis : Dict.t (option Q)) : DataFrame :=
  map (fun kv : string * option Q =>
         let (i, valor) := kv in
         let benchmark := Dict.get benchmarks i in
         let desvio :=
           cell1 (fun x => x * 100)
                 (cell2 Qdiv (cell2 Qminus valor benchmark) benchmark) in
         let valor_pct := cell1 (fun x => x * 100) valor in
         (i, mkRow valor benchmark desvio valor_pct))
      kpis.

(** ** Health score (lines 109-120) *)
Definition normalize (v : option Q) (ideal max_val : Q) : Q :=
  match v with
  | None => 0
  | Some v => if negb (Qeq_bool ideal 0) then Qmin (v / ideal) 1.0 else 0
  end.

Definition score (kpis : Dict.t (option Q)) : option Q :=
  margem_ebitda <- Dict.get kpis "Margem EBITDA" ;;
  margem_liquida <- Dict.get kpis "Margem Líquida" ;;
  roe <- Dict.get kpis "ROE" ;;
  divida_pl <- Dict.get kpis "Dívida/PL" ;;
  liquidez <- Dict.get kpis "Liquidez Corrente" ;;
  Some ((0.25 * normalize margem_ebitda 0.2 0.4 +
         0.2 * normalize margem_liquida 0.1 0.2 +
         0.25 * normalize roe 0.15 0.3 +
         0.2 * (1 - normalize divida_pl 1 3) +
         0.1 * normalize liquidez 1.5 3) * 100).

(** ** Diagnosis (lines 135-146)

    One [if]/[elif] chain assigns both texts. *)
Definition diagnosis_excelente :=
  "Excelente condição financeira. Estrutura de capital sólida e margens saudáveis.".
Definition recommendation_excelente :=
  "A empresa apresenta perfil atrativo para investidores institucionais e estratégicos.".
Definition diagnosis_boa :=
  "Boa condição financeira, com pontos de atenção em margens ou alavancagem.".
Definition recommendation_boa :=
  "Pode ser considerada para investimento, desde que haja monitoramento de eficiência operacional.".
Definition diagnosis_moderada :=
  "Situação moderada, com fragilidades em rentabilidade ou endividamento.".
Definition recommendation_moderada :=
  "Investimento requer análise aprofundada e possível reestruturação de capital.".
Definition diagnosis_fraca :=
  "Condição financeira fraca. Elevado risco operacional e financeiro.".
Definition recommendation_fraca :=
  "Não recomendada para investimento no estágio atual.".

Definition diagnosis_recommendation (score : Q) : string * string :=
  if Qle_bool 80 score then (diagnosis_excelente, recommendation_excelente)
  else if Qle_bool 60 score then (diagnosis_boa, recommendation_boa)
  else if Qle_bool 40 score then (diagnosis_moderada, recommendation_moderada)
  else (diagnosis_fraca, recommendation_fraca).

(** ** Formatting with [:.1f]

    One digit after the point, the nearest such decimal to the exact value,
    a tie going to the even last digit; the sign is kept, also on a negative
    value that rounds to zero. *)
Definition round_half_even (x : Q) : Z :=
  let n := Qfloor x in
  match Qcompare (x - inject_Z n) (1 # 2) with
  | Lt => n
  | Gt => (n + 1)%Z
  | Eq => if Z.even n then n else (n + 1)%Z
  end.

Definition digits (n : Z) : string :=
  NilZero.string_of_uint (N.to_uint (Z.to_N n)).

Definition format_1f (x : Q) : string :=
  let tenths := round_half_even (Qabs x * 10) in
  (if Qltb x 0 then "-" else "") ++
  digits (tenths / 10) ++ "." ++ digits (tenths mod 10).

(** ** Automatic comparisons (lines 149-157) *)
Definition comparisons_step (comparisons : list string) (ir : string * Row)
  : list string :=
  let (i, row) := ir in
  match Desvio row with
  | Some desvio =>
      if Qltb 10 desvio then
        comparisons ++ [i ++ " acima do benchmark (+" ++ format_1f desvio ++ "%)"]
      else if Qltb desvio (-10) then
        comparisons ++ [i ++ " abaixo do benchmark (" ++ format_1f desvio ++ "%)"]
      else comparisons
  | None => comparisons
  end.

Definition comparisons (df : DataFrame) : list string :=
  fold_left comparisons_step df [].

Fixpoint join (sep : string) (l : list string) : string :=
  match l with
  | [] => ""
  | [s] => s
  | s :: l' => s ++ sep ++ join sep l'
  end.

Definition newline : string := String (ascii_of_nat 10) EmptyString.

Definition fallback_message : string :=
  "Os indicadores estão próximos das médias de mercado.".

Definition insights (comparisons : list string) : string :=
  match comparisons with
  | [] => fallback_message
  | _ => "• " ++ join (newline ++ "• ") comparisons
  end.

(** ** The whole calculation (lines 47-157)

    Everything the block computes from a submitted form and hands to the
    table, the chart and the report. *)
Record Output : Type := mkOutput {
  out_kpis : Dict.t (option Q);
  out_df : DataFrame;
  out_score : Q;
  out_diagnosis : string;
  out_recommendation : string;
  out_comparisons : list string;
  out_insights : string
}.

Definition logica (f : Form) : option Output :=
  let kpis := kpis f in
  let df := df kpis in
  score <- score kpis ;;
  let (diagnosis, recommendation) := diagnosis_recommendation score in
  let comparisons := comparisons df in
  Some (mkOutput kpis df score diagnosis recommendation comparisons
                 (insights comparisons)).

(** ** Sample forms *)
Definition form_zero : Form :=
  mkForm "" 0 0 0 0 0 0 0 0 0 0.

Definition form_sample : Form :=
  mkForm "Alpargatas S.A." 1000 450 250 120 2000 1200 800 700 500 300.

(** ** The formula of the specification

    Written from the specification's sentences, to be compared with [score]:
    [normalize(v, ideal)] is 0 when [v] is undefined or [ideal] is 0 and
    [min(v/ideal, 1.0)] otherwise; the score is 100 times the weighted sum. *)
Definition spec_normalize (v : option Q) (ideal : Q) : Q :=
  match v with
  | None => 0
  | Some x => if Qeq_bool ideal 0 then 0 else Qmin (x / ideal) 1.0
  end.

Definition spec_score
  (EbitdaMargin NetMargin ROE DebtToEquity CurrentRatio : option Q) : Q :=
  100 * (0.25 * spec_normalize EbitdaMargin 0.20 +
         0.20 * spec_normalize NetMargin 0.10 +
         0.25 * spec_normalize ROE 0.15 +
         0.20 * (1 - spec_normalize DebtToEquity 1.0) +
         0.10 * spec_normalize CurrentRatio 1.5).

(** A KPI is defined when its key holds a number, undefined when it holds
    [None]. *)
Definition kpi_defined (kpis : Dict.t (option Q)) (k : string) : Prop :=
  exists v, Dict.get kpis k = Some (Some v).

Definition kpi_undefined (kpis : Dict.t (option Q)) (k : string) : Prop :=
  Dict.get kpis k = Some None.

(** The score as a function of one KPI, the rest of the mapping fixed. *)
Definition score_at (kpis : Dict.t (option Q)) (k : string) (v : Q) : option Q :=
  score (Dict.set kpis k (Some v)).

Definition nondecreasing_up_to (g : Q -> option Q) (cap : Q) : Prop :=
  forall v1 v2, v1 <= v2 ->
    exists s1 s2, g v1 = Some s1 /\ g v2 = Some s2 /\
      s1 <= s2 /\
      (v1 < v2 -> v2 <= cap -> s1 < s2) /\
      (cap <= v1 -> s1 == s2).

Definition nonincreasing_up_to (g : Q -> option Q) (cap : Q) : Prop :=
  forall v1 v2, v1 <= v2 ->
    exists s1 s2, g v1 = Some s1 /\ g v2 = Some s2 /\
      s2 <= s1 /\
      (v1 < v2 -> v2 <= cap -> s2 < s1) /\
      (cap <= v1 -> s1 == s2).

(** Replacing a defined value of KPI [k] by an undefined one takes the term
    [term] of that KPI, 100 times over, off the score. *)
Definition removes_term (kpis : Dict.t (option Q)) (k : string)
  (term : option Q -> Q) : Prop :=
  forall v, exists s_undef s_def,
    score (Dict.set kpis k None) = Some s_undef /\
    score_at kpis k v = Some s_def /\
    s_undef == s_def - 100 * term (Some v).

(** The insight generator as the specification words it: keep the rows
    whose deviation is defined and beyond 10 percent, then word each one. *)
Definition crosses_threshold (ir : string * Row) : bool :=
  match Desvio (snd ir) with
  | Some d => Qltb 10 d || Qltb d (-10)
  | None => false
  end.

Definition bullet_text (ir : string * Row) : string :=
  match Desvio (snd ir) with
  | Some d =>
      if Qltb 10 d
      then fst ir ++ " acima do benchmark (+" ++ format_1f d ++ "%)"
      else fst ir ++ " abaixo do benchmark (" ++ format_1f d ++ "%)"
  | None => ""
  end.

(** ** Radar chart data (lines 86-92)

    [benchmarks.get(k, 0)] is the lookup with a default; [values[:1]] is the
    first element as a list, empty on an empty list; [angles[:-1]] drops the
    last element. *)
Definition get_default {V : Type} (d : Dict.t V) (k : string) (default : V) : V :=
  match Dict.get d k with
  | Some v => v
  | None => default
  end.

Definition labels (kpis : Dict.t (option Q)) : list string := Dict.keys kpis.

Definition values (kpis : Dict.t (option Q)) : list Q :=
  let values :=
    map (fun kv : string * option Q =>
           match snd kv with Some v => v | None => 0 end) kpis in
  (values ++ firstn 1 values)%list.

Definition benchmark_values (labels : list string) : list Q :=
  let benchmark_values := map (fun k => get_default benchmarks k 0) labels in
  (benchmark_values ++ firstn 1 benchmark_values)%list.

Definition angle (len_labels n : nat) : Q :=
  inject_Z (Z.of_nat n) / inject_Z (Z.of_nat len_labels) * 2 * 3.14159.

Definition angles (labels : list string) : list Q :=
  let angles :=
    map (angle (List.length labels)) (seq 0 (List.length labels)) in
  (angles ++ firstn 1 angles)%list.

Definition xticks (angles : list Q) : list Q := removelast angles.

(** ** Report paragraphs (lines 183 and 203)

    [insights.replace(newline, "<br/>")] replaces a one-character pattern:
    every occurrence of the character, left to right. *)
Definition score_paragraph (score : Q) : string :=
  "<b>Índice de Saúde Financeira:</b> " ++ format_1f score ++ "/100".

Fixpoint replace (old : ascii) (new : string) (s : string) : string :=
  match s with
  | EmptyString => EmptyString
  | String c s' =>
      if Ascii.eqb c old then new ++ replace old new s'
      else String c (replace old new s')
  end.

Definition insights_paragraph (insights : string) : string :=
  replace (ascii_of_nat 10) "<br/>" insights.

(** ** Vocabulary of the further properties *)

(** The five keys [score] reads. *)
Definition scored_keys : list string :=
  ["Margem EBITDA"; "Margem Líquida"; "ROE"; "Dívida/PL"; "Liquidez Corrente"].

(** The same company with every figure in another unit. *)
Definition scale (c : Q) (f : Form) : Form :=
  mkForm (company_name f) (c * receita f) (c * lucro_bruto f) (c * ebitda f)
         (c * lucro_liquido f) (c * ativo_total f) (c * passivo_total f)
         (c * patrimonio_liquido f) (c * divida_liquida f)
         (c * ativo_circ f) (c * passivo_circ f).

(** Two cells hold the same number, or are both empty. *)
Definition cell_eq (a b : option Q) : Prop :=
  match a, b with
  | Some x, Some y => x == y
  | None, None => True
  | _, _ => False
  end.

(** A character occurs in a string. *)
Fixpoint occurs (c : ascii) (s : string) : bool :=
  match s with
  | EmptyString => false
  | String c' s' => Ascii.eqb c' c || occurs c s'
  end.

(** ** Proof automation

    [lra] knows no division: [qdiv_consts] turns a division by a constant
    into a product; [min_cases] splits on which argument every [Qmin] of the
    goal returns; [eval_eqb] decides the comparisons of key literals. *)
Ltac qdiv_consts :=
  unfold Qdiv in *;
  repeat match goal with
  | |- context [Qinv (Qmake ?n ?d)] =>
      let c := eval vm_compute in (Qinv (Qmake n d)) in
      change (Qinv (Qmake n d)) with c
  | H : context [Qinv (Qmake ?n ?d)] |- _ =>
      let c := eval vm_compute in (Qinv (Qmake n d)) in
      change (Qinv (Qmake n d)) with c in H
  end.

Ltac min_cases :=
  repeat match goal with
  | |- context [Qmin ?a ?b] =>
      let H := fresh "Hmin" in
      let m := fresh "m" in
      destruct (Q.min_spec a b) as [[? H] | [? H]];
      revert H; generalize (Qmin a b); intros m H
  end.

Ltac eval_eqb :=
  repeat match goal with
  | |- context [String.eqb ?a ?b] =>
      let c := eval vm_compute in (String.eqb a b) in
      change (String.eqb a b) with c
  end;
  cbv iota.

(** * Basic facts *)

Lemma truthy_true (x : Q) : truthy x = true <-> ~ x == 0.
Proof.
  unfold truthy. rewrite negb_true_iff, <- not_true_iff_false, Qeq_bool_iff.
  tauto.
Qed.

Lemma truthy_false (x : Q) : truthy x = false <-> x == 0.
Proof.
  unfold truthy. rewrite negb_false_iff, Qeq_bool_iff. tauto.
Qed.

Lemma truthy_pos (x : Q) : 0 <= x -> (truthy x = true <-> 0 < x).
Proof.
  intros Hx. rewrite truthy_true. split; intros H.
  - destruct (Qlt_le_dec 0 x) as [Hlt | Hle]; [exact Hlt|].
    exfalso. apply H. apply Qle_antisym; assumption.
  - intros E. rewrite E in H. exact (Qlt_irrefl 0 H).
Qed.

Lemma Qltb_lt (a b : Q) : Qltb a b = true <-> a < b.
Proof.
  unfold Qltb. rewrite negb_true_iff, <- not_true_iff_false, Qle_bool_iff.
  split; [apply Qnot_le_lt | apply Qlt_not_le].
Qed.

Lemma Qltb_ge (a b : Q) : Qltb a b = false <-> b <= a.
Proof.
  unfold Qltb. rewrite negb_false_iff, Qle_bool_iff. tauto.
Qed.

Lemma get_set {V : Type} (d : Dict.t V) (k k' : string) (v : V) :
  Dict.get (Dict.set d k v) k' =
  if String.eqb k k' then Some v else Dict.get d k'.
Proof.
  induction d as [| [k0 v0] d IH]; simpl.
  - reflexivity.
  - destruct (String.eqb k0 k) eqn:E0; simpl.
    + apply String.eqb_eq in E0. subst k0.
      destruct (String.eqb k k'); reflexivity.
    + destruct (String.eqb k0 k') eqn:E1.
      * apply String.eqb_eq in E1. subst k'.
        rewrite String.eqb_sym, E0. reflexivity.
      * exact IH.
Qed.

Lemma kpis_items (f : Form) :
  kpis f =
  [ ("Margem Bruta",
     if truthy (receita f) then Some (lucro_bruto f / receita f) else None);
    ("Margem EBITDA",
     if truthy (receita f) then Some (ebitda f / receita f) else None);
    ("Margem Líquida",
     if truthy (receita f) then Some (lucro_liquido f / receita f) else None);
    ("ROE",
     if truthy (patrimonio_liquido f)
     then Some (lucro_liquido f / patrimonio_liquido f) else None);
    ("ROA",
     if truthy (ativo_total f)
     then Some (lucro_liquido f / ativo_total f) else None);
    ("Dívida/PL",
     if truthy (patrimonio_liquido f)
     then Some (divida_liquida f / patrimonio_liquido f) else None);
    ("Liquidez Corrente",
     if truthy (ativo_circ f) && truthy (passivo_circ f)
     then Some (ativo_circ f / passivo_circ f) else None) ].
Proof. reflexivity. Qed.

(** * The health score *)

Lemma normalize_spec (v : option Q) (ideal max_val : Q) :
  normalize v ideal max_val = spec_normalize v ideal.
Proof.
  destruct v as [x |]; simpl; [| reflexivity].
  destruct (Qeq_bool ideal 0); reflexivity.
Qed.

Lemma normalize_range (v : option Q) (ideal max_val : Q) :
  0 < ideal -> (forall x, v = Some x -> 0 <= x) ->
  0 <= normalize v ideal max_val <= 1.
Proof.
  intros Hi Hv. destruct v as [x |]; simpl; [| lra].
  assert (Hx : 0 <= x) by (apply Hv; reflexivity).
  destruct (Qeq_bool ideal 0); simpl; [lra |].
  assert (Hd : 0 <= x / ideal) by (apply Qle_shift_div_l; lra).
  revert Hd. generalize (x / ideal). intros y Hy.
  min_cases; lra.
Qed.

Lemma score_values (d : Dict.t (option Q)) (e n r p l : option Q) :
  Dict.get d "Margem EBITDA" = Some e ->
  Dict.get d "Margem Líquida" = Some n ->
  Dict.get d "ROE" = Some r ->
  Dict.get d "Dívida/PL" = Some p ->
  Dict.get d "Liquidez Corrente" = Some l ->
  score d =
  Some ((0.25 * normalize e 0.2 0.4 + 0.2 * normalize n 0.1 0.2 +
         0.25 * normalize r 0.15 0.3 + 0.2 * (1 - normalize p 1 3) +
         0.1 * normalize l 1.5 3) * 100).
Proof.
  intros He Hn Hr Hp Hl. unfold score. rewrite He, Hn, Hr, Hp, Hl.
  reflexivity.
Qed.

Lemma score_defined_inv (d : Dict.t (option Q)) (s : Q) :
  score d = Some s ->
  exists e n r p l,
    Dict.get d "Margem EBITDA" = Some e /\
    Dict.get d "Margem Líquida" = Some n /\
    Dict.get d "ROE" = Some r /\
    Dict.get d "Dívida/PL" = Some p /\
    Dict.get d "Liquidez Corrente" = Some l.
Proof.
  unfold score, bind. intros H.
  destruct (Dict.get d "Margem EBITDA") as [e |]; [| discriminate].
  destruct (Dict.get d "Margem Líquida") as [n |]; [| discriminate].
  destruct (Dict.get d "ROE") as [r |]; [| discriminate].
  destruct (Dict.get d "Dívida/PL") as [p |]; [| discriminate].
  destruct (Dict.get d "Liquidez Corrente") as [l |]; [| discriminate].
  exists e, n, r, p, l. repeat split; reflexivity.
Qed.

Lemma spec_normalize_compat (v : option Q) (a b : Q) :
  a == b -> spec_normalize v a == spec_normalize v b.
Proof.
  intros H. destruct v as [x |]; simpl; [| reflexivity].
  rewrite H. destruct (Qeq_bool b 0); [reflexivity |].
  rewrite H. reflexivity.
Qed.

Lemma spec_score_eq (e n r p l : option Q) :
  (0.25 * normalize e 0.2 0.4 + 0.2 * normalize n 0.1 0.2 +
   0.25 * normalize r 0.15 0.3 + 0.2 * (1 - normalize p 1 3) +
   0.1 * normalize l 1.5 3) * 100 == spec_score e n r p l.
Proof.
  unfold spec_score. rewrite !normalize_spec.
  rewrite (spec_normalize_compat p 1 1.0) by reflexivity.
  rewrite (spec_normalize_compat e 0.2 0.20) by reflexivity.
  rewrite (spec_normalize_compat n 0.1 0.10) by reflexivity.
  ring.
Qed.

Lemma ratio_nonneg (c : bool) (a x y : Q) :
  0 <= a -> 0 <= x -> (c = true -> truthy x = true) ->
  (if c then Some (a / x) else None) = Some y -> 0 <= y.
Proof.
  intros Ha Hx Hc E. destruct c; [| discriminate].
  injection E as <-. apply Qle_shift_div_l; [| lra].
  apply truthy_pos; auto.
Qed.

Lemma kpis_scored (f : Form) :
  Dict.get (kpis f) "Margem EBITDA" =
    Some (if truthy (receita f) then Some (ebitda f / receita f) else None) /\
  Dict.get (kpis f) "Margem Líquida" =
    Some (if truthy (receita f)
          then Some (lucro_liquido f / receita f) else None) /\
  Dict.get (kpis f) "ROE" =
    Some (if truthy (patrimonio_liquido f)
          then Some (lucro_liquido f / patrimonio_liquido f) else None) /\
  Dict.get (kpis f) "Dívida/PL" =
    Some (if truthy (patrimonio_liquido f)
          then Some (divida_liquida f / patrimonio_liquido f) else None) /\
  Dict.get (kpis f) "Liquidez Corrente" =
    Some (if truthy (ativo_circ f) && truthy (passivo_circ f)
          then Some (ativo_circ f / passivo_circ f) else None).
Proof. repeat split; reflexivity. Qed.

(** C10: [normalize] does not depend on its third argument, [max_val]: any
    two values of it give the same result. *)
Theorem normalize_max_val_unused (v : option Q) (ideal m1 m2 : Q) :
  normalize v ideal m1 = normalize v ideal m2.
Proof. reflexivity. Qed.

(** C1: for the KPI mapping of a form with non-negative fields, the score
    is returned and equals the specification's formula, 100 times the
    weighted sum of the normalised EBITDA margin, net margin, ROE, inverted
    debt-to-equity and current ratio.  (The proof does not need the premise:
    the code computes the formula on any mapping that has the five keys.) *)
Theorem score_formula (f : Form) :
  nonneg f ->
  exists e n r p l s,
    Dict.get (kpis f) "Margem EBITDA" = Some e /\
    Dict.get (kpis f) "Margem Líquida" = Some n /\
    Dict.get (kpis f) "ROE" = Some r /\
    Dict.get (kpis f) "Dívida/PL" = Some p /\
    Dict.get (kpis f) "Liquidez Corrente" = Some l /\
    score (kpis f) = Some s /\
    s == spec_score e n r p l.
Proof.
  intros _.
  destruct (kpis_scored f) as (He & Hn & Hr & Hp & Hl).
  do 5 eexists. eexists.
  repeat (split; [eassumption |]).
  split.
  - apply score_values; eassumption.
  - apply spec_score_eq.
Qed.

Lemma score_formula_witness :
  nonneg form_sample /\
  exists e n r p l s,
    Dict.get (kpis form_sample) "Margem EBITDA" = Some e /\
    Dict.get (kpis form_sample) "Margem Líquida" = Some n /\
    Dict.get (kpis form_sample) "ROE" = Some r /\
    Dict.get (kpis form_sample) "Dívida/PL" = Some p /\
    Dict.get (kpis form_sample) "Liquidez Corrente" = Some l /\
    score (kpis form_sample) = Some s /\
    s == spec_score e n r p l.
Proof.
  split.
  - unfold nonneg; simpl; repeat split; discriminate.
  - apply (score_formula form_sample).
    unfold nonneg; simpl; repeat split; discriminate.
Defined.

(** C4: for every form whose ten fields are non-negative the score is
    returned and lies in the closed interval from 0 to 100. *)
Theorem score_range (f : Form) :
  nonneg f -> exists s, score (kpis f) = Some s /\ 0 <= s <= 100.
Proof.
  intros (Hrec & _ & Heb & Hll & _ & _ & Hpl & Hdl & Hac & Hpc).
  destruct (kpis_scored f) as (He & Hn & Hr & Hp & Hl).
  eexists. split; [apply (score_values _ _ _ _ _ _ He Hn Hr Hp Hl) |].
  assert (B1 := normalize_range
    (if truthy (receita f) then Some (ebitda f / receita f) else None)
    0.2 0.4).
  assert (B2 := normalize_range
    (if truthy (receita f) then Some (lucro_liquido f / receita f) else None)
    0.1 0.2).
  assert (B3 := normalize_range
    (if truthy (patrimonio_liquido f)
     then Some (lucro_liquido f / patrimonio_liquido f) else None) 0.15 0.3).
  assert (B4 := normalize_range
    (if truthy (patrimonio_liquido f)
     then Some (divida_liquida f / patrimonio_liquido f) else None) 1 3).
  assert (B5 := normalize_range
    (if truthy (ativo_circ f) && truthy (passivo_circ f)
     then Some (ativo_circ f / passivo_circ f) else None) 1.5 3).
  destruct B1 as [L1 U1]; [reflexivity | intros x; apply ratio_nonneg; auto |].
  destruct B2 as [L2 U2]; [reflexivity | intros x; apply ratio_nonneg; auto |].
  destruct B3 as [L3 U3]; [reflexivity | intros x; apply ratio_nonneg; auto |].
  destruct B4 as [L4 U4]; [reflexivity | intros x; apply ratio_nonneg; auto |].
  destruct B5 as [L5 U5];
    [reflexivity
    | intros x; apply ratio_nonneg; auto;
      intros E; apply andb_true_iff in E; tauto |].
  revert L1 U1 L2 U2 L3 U3 L4 U4 L5 U5.
  generalize
    (normalize (if truthy (receita f)
                then Some (ebitda f / receita f) else None) 0.2 0.4),
    (normalize (if truthy (receita f)
                then Some (lucro_liquido f / receita f) else None) 0.1 0.2),
    (normalize (if truthy (patrimonio_liquido f)
                then Some (lucro_liquido f / patrimonio_liquido f)
                else None) 0.15 0.3),
    (normalize (if truthy (patrimonio_liquido f)
                then Some (divida_liquida f / patrimonio_liquido f)
                else None) 1 3),
    (normalize (if truthy (ativo_circ f) && truthy (passivo_circ f)
                then Some (ativo_circ f / passivo_circ f) else None) 1.5 3).
  intros. lra.
Qed.

Lemma score_range_witness :
  nonneg form_sample /\
  exists s, score (kpis form_sample) = Some s /\ 0 <= s <= 100.
Proof.
  split.
  - unfold nonneg; simpl; repeat split; discriminate.
  - apply (score_range form_sample).
    unfold nonneg; simpl; repeat split; discriminate.
Defined.

(** * The KPI calculator *)

Lemma guarded_defined (c : bool) (q : Q) (P : Prop) :
  (c = true <-> P) ->
  ((exists v, Some (if c then Some q else None) = Some (Some v)) <-> P).
Proof.
  intros Hc. split.
  - intros [v E]. apply Hc. destruct c; [reflexivity | discriminate].
  - intros HP. apply Hc in HP. subst c. exists q. reflexivity.
Qed.

Lemma both_truthy_pos (a b : Q) :
  0 <= a -> 0 <= b -> (truthy a && truthy b = true <-> 0 < a /\ 0 < b).
Proof.
  intros Ha Hb.
  rewrite andb_true_iff, (truthy_pos a Ha), (truthy_pos b Hb). tauto.
Qed.

(** C7: for a form with non-negative fields, the three margins are defined
    exactly when the revenue is positive and then equal gross profit, EBITDA
    and net income over revenue, and all three are undefined when the revenue
    is zero whatever the other fields; ROE and debt-to-equity are defined
    exactly when the equity is positive; ROA exactly when total assets are
    positive; the current ratio exactly when current assets and current
    liabilities are both positive, and then equals their quotient. *)
Theorem kpis_defined_exactly (f : Form) :
  nonneg f ->
  (kpi_defined (kpis f) "Margem Bruta" <-> 0 < receita f) /\
  (kpi_defined (kpis f) "Margem EBITDA" <-> 0 < receita f) /\
  (kpi_defined (kpis f) "Margem Líquida" <-> 0 < receita f) /\
  (0 < receita f ->
     Dict.get (kpis f) "Margem Bruta" = Some (Some (lucro_bruto f / receita f)) /\
     Dict.get (kpis f) "Margem EBITDA" = Some (Some (ebitda f / receita f)) /\
     Dict.get (kpis f) "Margem Líquida" =
       Some (Some (lucro_liquido f / receita f))) /\
  (receita f == 0 ->
     kpi_undefined (kpis f) "Margem Bruta" /\
     kpi_undefined (kpis f) "Margem EBITDA" /\
     kpi_undefined (kpis f) "Margem Líquida") /\
  (kpi_defined (kpis f) "ROE" <-> 0 < patrimonio_liquido f) /\
  (kpi_defined (kpis f) "Dívida/PL" <-> 0 < patrimonio_liquido f) /\
  (kpi_defined (kpis f) "ROA" <-> 0 < ativo_total f) /\
  (kpi_defined (kpis f) "Liquidez Corrente" <->
     0 < ativo_circ f /\ 0 < passivo_circ f) /\
  (0 < ativo_circ f /\ 0 < passivo_circ f ->
     Dict.get (kpis f) "Liquidez Corrente" =
       Some (Some (ativo_circ f / passivo_circ f))) /\
  (forall k, In k (Dict.keys (kpis f)) ->
     kpi_defined (kpis f) k \/ kpi_undefined (kpis f) k).
Proof.
  intros (Hrec & _ & _ & _ & Hat & _ & Hpl & _ & Hac & Hpc).
  pose proof (truthy_pos _ Hrec) as Trec.
  pose proof (truthy_pos _ Hpl) as Tpl.
  pose proof (truthy_pos _ Hat) as Tat.
  pose proof (both_truthy_pos _ _ Hac Hpc) as Tliq.
  unfold kpi_defined, kpi_undefined.
  repeat match goal with |- _ /\ _ => split end.
  - apply guarded_defined, Trec.
  - apply guarded_defined, Trec.
  - apply guarded_defined, Trec.
  - intros H. apply Trec in H. cbn. rewrite H. repeat split.
  - intros H. apply truthy_false in H. cbn. rewrite H. repeat split.
  - apply guarded_defined, Tpl.
  - apply guarded_defined, Tpl.
  - apply guarded_defined, Tat.
  - apply guarded_defined, Tliq.
  - intros H. apply Tliq in H. cbn. rewrite H. reflexivity.
  - intros k Hk. cbn in Hk.
    repeat (destruct Hk as [<- | Hk];
            [cbn; match goal with
                  | |- context [if ?c then _ else _] =>
                      destruct c; [left; eexists; reflexivity | right; reflexivity]
                  end |]).
    contradiction.
Qed.

Lemma kpis_defined_exactly_witness :
  nonneg form_sample /\
  (kpi_defined (kpis form_sample) "Margem Bruta" <-> 0 < receita form_sample) /\
  Dict.get (kpis form_sample) "Liquidez Corrente" = Some (Some (500 / 300)).
Proof.
  assert (N : nonneg form_sample)
    by (unfold nonneg; simpl; repeat split; discriminate).
  destruct (kpis_defined_exactly form_sample N)
    as (H1 & _ & _ & _ & _ & _ & _ & _ & _ & H10 & _).
  split; [exact N |]. split; [exact H1 |].
  apply H10. split; reflexivity.
Defined.

(** * The diagnosis classifier *)

Lemma Qle_bool_false (a b : Q) : Qle_bool a b = false <-> b < a.
Proof.
  rewrite <- not_true_iff_false, Qle_bool_iff.
  split; [apply Qnot_le_lt | apply Qlt_not_le].
Qed.

(** C5: the classifier gives each score exactly one of four pairs of texts,
    the first threshold reached winning: the excellent pair exactly from 80
    up, the good pair exactly on [60, 80), the moderate pair exactly on
    [40, 60) and the weak pair exactly below 40; so 80 is excellent, 79.99
    and 60 are good, and 40 is moderate. *)
Theorem diagnosis_bands (s : Q) :
  (diagnosis_recommendation s = (diagnosis_excelente, recommendation_excelente)
     <-> 80 <= s) /\
  (diagnosis_recommendation s = (diagnosis_boa, recommendation_boa)
     <-> 60 <= s < 80) /\
  (diagnosis_recommendation s = (diagnosis_moderada, recommendation_moderada)
     <-> 40 <= s < 60) /\
  (diagnosis_recommendation s = (diagnosis_fraca, recommendation_fraca)
     <-> s < 40) /\
  diagnosis_recommendation 80 = (diagnosis_excelente, recommendation_excelente) /\
  diagnosis_recommendation 79.99 = (diagnosis_boa, recommendation_boa) /\
  diagnosis_recommendation 60 = (diagnosis_boa, recommendation_boa) /\
  diagnosis_recommendation 40 = (diagnosis_moderada, recommendation_moderada).
Proof.
  unfold diagnosis_recommendation.
  repeat match goal with |- _ /\ _ => split end;
    try reflexivity;
    (destruct (Qle_bool 80 s) eqn:E80;
     [ apply Qle_bool_iff in E80 | apply Qle_bool_false in E80 ]);
    try (destruct (Qle_bool 60 s) eqn:E60;
         [ apply Qle_bool_iff in E60 | apply Qle_bool_false in E60 ]);
    try (destruct (Qle_bool 40 s) eqn:E40;
         [ apply Qle_bool_iff in E40 | apply Qle_bool_false in E40 ]);
    (split; [ intros H; try discriminate H; lra
            | intros H; try reflexivity; exfalso; lra ]).
Qed.

(** * The whole calculation *)

(** The block raises no [KeyError]: it returns a result on every form. *)
Lemma logica_returns (f : Form) : exists o, logica f = Some o.
Proof.
  destruct (kpis_scored f) as (He & Hn & Hr & Hp & Hl).
  unfold logica.
  rewrite (score_values _ _ _ _ _ _ He Hn Hr Hp Hl). simpl.
  destruct (diagnosis_recommendation _). eexists. reflexivity.
Qed.


(** C9: two forms that differ only in [passivo_total] give the same result
    in every part: KPIs, data frame with its deviations, score, diagnosis,
    recommendation, comparisons and insight text. *)
Theorem passivo_total_unused
  (name : string)
  (receita lucro_bruto ebitda lucro_liquido ativo_total : Q)
  (passivo_total passivo_total' : Q)
  (patrimonio_liquido divida_liquida ativo_circ passivo_circ : Q) :
  logica (mkForm name receita lucro_bruto ebitda lucro_liquido ativo_total
                 passivo_total
                 patrimonio_liquido divida_liquida ativo_circ passivo_circ) =
  logica (mkForm name receita lucro_bruto ebitda lucro_liquido ativo_total
                 passivo_total'
                 patrimonio_liquido divida_liquida ativo_circ passivo_circ).
Proof. reflexivity. Qed.

(** * Monotonicity and undefined values *)

Lemma normalize_some (v ideal max_val : Q) :
  Qeq_bool ideal 0 = false ->
  normalize (Some v) ideal max_val = Qmin (v / ideal) 1.0.
Proof. intros H. simpl. rewrite H. reflexivity. Qed.

Lemma score_set (d : Dict.t (option Q)) (k : string) (x e n r p l : option Q) :
  Dict.get d "Margem EBITDA" = Some e ->
  Dict.get d "Margem Líquida" = Some n ->
  Dict.get d "ROE" = Some r ->
  Dict.get d "Dívida/PL" = Some p ->
  Dict.get d "Liquidez Corrente" = Some l ->
  score (Dict.set d k x) =
  Some ((0.25 * normalize (if String.eqb k "Margem EBITDA" then x else e) 0.2 0.4 +
         0.2 * normalize (if String.eqb k "Margem Líquida" then x else n) 0.1 0.2 +
         0.25 * normalize (if String.eqb k "ROE" then x else r) 0.15 0.3 +
         0.2 * (1 - normalize (if String.eqb k "Dívida/PL" then x else p) 1 3) +
         0.1 * normalize (if String.eqb k "Liquidez Corrente" then x else l) 1.5 3)
        * 100).
Proof.
  intros He Hn Hr Hp Hl.
  apply score_values; rewrite get_set;
    match goal with
    | |- context [String.eqb ?a ?b] => destruct (String.eqb a b)
    end;
    congruence.
Qed.

Lemma score_nondecreasing (d : Dict.t (option Q)) (k : string) (cap : Q) :
  In (k, cap) [("Margem EBITDA", 0.2); ("Margem Líquida", 0.1);
               ("ROE", 0.15); ("Liquidez Corrente", 1.5)] ->
  (exists s, score d = Some s) ->
  nondecreasing_up_to (score_at d k) cap.
Proof.
  intros Hk [s0 Hd] v1 v2 Hv.
  destruct (score_defined_inv _ _ Hd)
    as (e & n & r & p & l & He & Hn & Hr & Hp & Hl).
  unfold score_at.
  rewrite !(score_set d _ _ e n r p l He Hn Hr Hp Hl).
  do 2 eexists. split; [reflexivity |]. split; [reflexivity |].
  repeat (destruct Hk as [Hk | Hk];
          [ injection Hk as <- <-; eval_eqb;
            rewrite !normalize_some by reflexivity;
            qdiv_consts; min_cases; repeat split; intros; lra |]).
  contradiction.
Qed.

Lemma score_nonincreasing (d : Dict.t (option Q)) :
  (exists s, score d = Some s) ->
  nonincreasing_up_to (score_at d "Dívida/PL") 1.
Proof.
  intros [s0 Hd] v1 v2 Hv.
  destruct (score_defined_inv _ _ Hd)
    as (e & n & r & p & l & He & Hn & Hr & Hp & Hl).
  unfold score_at.
  rewrite !(score_set d _ _ e n r p l He Hn Hr Hp Hl).
  do 2 eexists. split; [reflexivity |]. split; [reflexivity |].
  eval_eqb. rewrite !normalize_some by reflexivity.
  qdiv_consts; min_cases; repeat split; intros; lra.
Qed.



Lemma score_drops_term (d : Dict.t (option Q)) (k : string) (w ideal max_val : Q) :
  In (k, (w, ideal, max_val))
     [("Margem EBITDA", (0.25, 0.2, 0.4)); ("Margem Líquida", (0.2, 0.1, 0.2));
      ("ROE", (0.25, 0.15, 0.3)); ("Liquidez Corrente", (0.1, 1.5, 3))] ->
  (exists s, score d = Some s) ->
  removes_term d k (fun v => w * normalize v ideal max_val).
Proof.
  intros Hk [s0 Hd] v.
  destruct (score_defined_inv _ _ Hd)
    as (e & n & r & p & l & He & Hn & Hr & Hp & Hl).
  unfold score_at.
  rewrite !(score_set d _ _ e n r p l He Hn Hr Hp Hl).
  do 2 eexists. split; [reflexivity |]. split; [reflexivity |].
  repeat (destruct Hk as [Hk | Hk];
          [ injection Hk as <- <- <- <-; eval_eqb;
            change (normalize None) with (fun _ _ : Q => 0); cbv beta; ring |]).
  contradiction.
Qed.




(** * The insight generator *)

Lemma comparisons_step_app (acc : list string) (ir : string * Row) :
  comparisons_step acc ir =
  (acc ++ (if crosses_threshold ir then [bullet_text ir] else []))%list.
Proof.
  destruct ir as [i row].
  unfold comparisons_step, crosses_threshold, bullet_text. simpl.
  destruct (Desvio row) as [d |]; [| now rewrite app_nil_r].
  destruct (Qltb 10 d); simpl; [reflexivity |].
  destruct (Qltb d (-10)); [reflexivity | now rewrite app_nil_r].
Qed.

Lemma comparisons_fold (df : DataFrame) (acc : list string) :
  fold_left comparisons_step df acc =
  (acc ++ map bullet_text (filter crosses_threshold df))%list.
Proof.
  revert acc. induction df as [| ir df IH]; intros acc; simpl.
  - now rewrite app_nil_r.
  - rewrite IH, comparisons_step_app.
    destruct (crosses_threshold ir); simpl.
    + now rewrite <- app_assoc.
    + now rewrite app_nil_r.
Qed.

Lemma crosses_threshold_iff (i : string) (row : Row) :
  crosses_threshold (i, row) = true <->
  exists d, Desvio row = Some d /\ (10 < d \/ d < -10).
Proof.
  unfold crosses_threshold. simpl. destruct (Desvio row) as [d |].
  - rewrite orb_true_iff, !Qltb_lt. split.
    + intros H. exists d. split; [reflexivity | exact H].
    + intros (d' & E & H). injection E as <-. exact H.
  - split; [discriminate | intros (d & E & _); discriminate].
Qed.

Lemma digits_one (n : Z) :
  (0 <= n < 10)%Z -> exists c, digits n = String c EmptyString.
Proof.
  intros H.
  assert (E : n = 0%Z \/ n = 1%Z \/ n = 2%Z \/ n = 3%Z \/ n = 4%Z \/
              n = 5%Z \/ n = 6%Z \/ n = 7%Z \/ n = 8%Z \/ n = 9%Z) by lia.
  repeat (destruct E as [-> | E]; [eexists; reflexivity |]).
  subst n. eexists; reflexivity.
Qed.

Lemma format_1f_shape (x : Q) :
  exists whole c,
    format_1f x =
    (if Qltb x 0 then "-" else "") ++ whole ++ "." ++ String c EmptyString.
Proof.
  unfold format_1f.
  destruct (digits_one (round_half_even (Qabs x * 10) mod 10)) as [c Hc].
  { apply Z.mod_pos_bound. lia. }
  rewrite Hc. eexists. exists c. reflexivity.
Qed.

(** C6: the generator emits, in row order, one bullet for every row whose
    deviation is defined and strictly above 10 ("<KPI> acima do benchmark
    (+X.X%)") or strictly below -10 ("<KPI> abaixo do benchmark (X.X%)", the
    minus sign kept), and nothing for any other row; a deviation of exactly
    10 or -10 emits nothing while 10.01 does; and when no row crosses a
    threshold the insight text is the fallback message, otherwise it is the
    bulleted list. *)
Theorem insight_generator (df : DataFrame) :
  comparisons df = map bullet_text (filter crosses_threshold df) /\
  (forall i row, crosses_threshold (i, row) = true <->
                 exists d, Desvio row = Some d /\ (10 < d \/ d < -10)) /\
  (forall i row d, Desvio row = Some d -> 10 < d ->
     bullet_text (i, row) =
     i ++ " acima do benchmark (+" ++ format_1f d ++ "%)") /\
  (forall i row d, Desvio row = Some d -> d < -10 ->
     bullet_text (i, row) =
     i ++ " abaixo do benchmark (" ++ format_1f d ++ "%)" /\
     exists whole c, format_1f d = "-" ++ whole ++ "." ++ String c EmptyString) /\
  (forall i v b p,
     comparisons [(i, mkRow v b (Some 10) p)] = [] /\
     comparisons [(i, mkRow v b (Some (-10)) p)] = [] /\
     comparisons [(i, mkRow v b None p)] = [] /\
     comparisons [(i, mkRow v b (Some 10.01) p)] =
       [i ++ " acima do benchmark (+10.0%)"]) /\
  ((forall ir, In ir df -> crosses_threshold ir = false) ->
     comparisons df = [] /\ insights (comparisons df) = fallback_message) /\
  ((exists ir, In ir df /\ crosses_threshold ir = true) ->
     insights (comparisons df) = "• " ++ join (newline ++ "• ") (comparisons df)).
Proof.
  assert (Hc : comparisons df = map bullet_text (filter crosses_threshold df))
    by apply (comparisons_fold df []).
  split; [exact Hc |].
  split; [apply crosses_threshold_iff |].
  split; [| split; [| split; [| split]]].
  - intros i row d E H. unfold bullet_text. simpl. rewrite E.
    apply Qltb_lt in H. rewrite H. reflexivity.
  - intros i row d E H. unfold bullet_text. simpl. rewrite E.
    assert (H10 : Qltb 10 d = false) by (apply Qltb_ge; lra).
    rewrite H10. split; [reflexivity |].
    destruct (format_1f_shape d) as (whole & c & Hf).
    assert (Hneg : Qltb d 0 = true) by (apply Qltb_lt; lra).
    rewrite Hneg in Hf. exists whole, c. exact Hf.
  - intros i v b p. repeat split.
  - intros Hnone.
    assert (E : comparisons df = []).
    { rewrite Hc. clear Hc.
      induction df as [| ir df IH]; [reflexivity |]. simpl.
      rewrite (Hnone ir) by (left; reflexivity).
      apply IH. intros ir' Hin. apply Hnone. right. exact Hin. }
    rewrite E. split; reflexivity.
  - intros (ir & Hin & Hcross).
    destruct (comparisons df) as [| c cs] eqn:E; [| reflexivity].
    exfalso.
    assert (Hf : In ir (filter crosses_threshold df))
      by (apply filter_In; split; assumption).
    apply (in_map bullet_text) in Hf. rewrite <- Hc in Hf. exact Hf.
Qed.

Lemma insight_generator_witness :
  (exists d, Desvio (mkRow (Some 0.45) (Some 0.40) (Some 12.5) (Some 45)) = Some d /\
             (10 < d \/ d < -10)) /\
  crosses_threshold
    ("Margem Bruta", mkRow (Some 0.45) (Some 0.40) (Some 12.5) (Some 45)) = true /\
  bullet_text
    ("Margem Bruta", mkRow (Some 0.45) (Some 0.40) (Some 12.5) (Some 45)) =
  "Margem Bruta acima do benchmark (+12.5%)" /\
  (exists ir, In ir (df (kpis form_sample)) /\ crosses_threshold ir = true) /\
  insights (comparisons (df (kpis form_sample))) =
  "• " ++ join (newline ++ "• ") (comparisons (df (kpis form_sample))).
Proof.
  destruct (insight_generator (df (kpis form_sample)))
    as (_ & Hiff & Habove & _ & _ & _ & Hsome).
  assert (Hd : exists d,
             Desvio (mkRow (Some 0.45) (Some 0.40) (Some 12.5) (Some 45)) = Some d /\
             (10 < d \/ d < -10)).
  { exists 12.5. split; [reflexivity | left; reflexivity]. }
  assert (Hin : exists ir, In ir (df (kpis form_sample)) /\
                           crosses_threshold ir = true).
  { eexists. split; [left; reflexivity | reflexivity]. }
  split; [exact Hd |]. split; [| split; [| split]].
  - apply (proj2 (Hiff "Margem Bruta" _)). exact Hd.
  - apply (Habove "Margem Bruta" _ 12.5); reflexivity.
  - exact Hin.
  - apply Hsome. exact Hin.
Defined.

(** * The worked example of the specification

    Revenue 1000, gross profit 450, EBITDA 250, net income 120, total assets
    2000, equity 800, net debt 700, current assets 500 and current
    liabilities 300 score 82.5 and get the excellent diagnosis. *)
Lemma sample_form_result :
  exists o,
    logica form_sample = Some o /\
    out_score o == 82.5 /\
    out_diagnosis o = diagnosis_excelente /\
    out_comparisons o =
      ["Margem Bruta acima do benchmark (+12.5%)";
       "Margem EBITDA acima do benchmark (+25.0%)";
       "Margem Líquida acima do benchmark (+20.0%)";
       "ROA abaixo do benchmark (-14.3%)";
       "Dívida/PL abaixo do benchmark (-12.5%)";
       "Liquidez Corrente acima do benchmark (+11.1%)"].
Proof.
  eexists. split; [reflexivity |]. repeat split.
Qed.

(** * The data frame *)

Lemma get_in {V : Type} (d : Dict.t V) (k : string) (v : V) :
  Dict.get d k = Some v -> In (k, v) d.
Proof.
  induction d as [| [k' v'] d IH]; simpl; [discriminate |].
  destruct (String.eqb k' k) eqn:E.
  - apply String.eqb_eq in E. intros H. injection H as <-. subst k'. now left.
  - intros H. right. apply IH, H.
Qed.

Lemma benchmarks_pos (k : string) (b : Q) :
  Dict.get benchmarks k = Some b -> 0 < b.
Proof.
  intros H. apply get_in in H. unfold benchmarks in H. simpl in H.
  repeat (destruct H as [H | H]; [injection H as _ <-; reflexivity |]).
  contradiction.
Qed.

Lemma div_mul_cancel (a b : Q) : 0 < b -> a / b * b == a.
Proof.
  intros Hb. field. intros E. rewrite E in Hb. exact (Qlt_irrefl 0 Hb).
Qed.

Lemma in_df (d : Dict.t (option Q)) (i : string) (row : Row) :
  In (i, row) (df d) <->
  exists v, In (i, v) d /\
    row = mkRow v (Dict.get benchmarks i)
            (cell1 (fun x => x * 100)
               (cell2 Qdiv (cell2 Qminus v (Dict.get benchmarks i))
                      (Dict.get benchmarks i)))
            (cell1 (fun x => x * 100) v).
Proof.
  unfold df. rewrite in_map_iff. split.
  - intros ([i' v] & E & Hin). injection E as <- <-. exists v. split; auto.
  - intros (v & Hin & ->). exists (i, v). split; auto.
Qed.

Lemma kpis_values_nonneg (f : Form) (i : string) (v : Q) :
  nonneg f -> In (i, Some v) (kpis f) -> 0 <= v.
Proof.
  intros (Hrec & Hlb & Heb & Hll & Hat & _ & Hpl & Hdl & Hac & Hpc) Hin.
  rewrite kpis_items in Hin. simpl in Hin.
  repeat (destruct Hin as [E | Hin];
          [ injection E as _ E;
            eapply ratio_nonneg; [| | | exact E]; auto;
            try (intros B; apply andb_true_iff in B; tauto) |]).
  contradiction.
Qed.

(** X1: every row of the data frame of a form finds its benchmark: the rows are
    the seven KPIs in the order of their assignment, each holds the value of
    its key and a positive benchmark, so neither the lookup of line 72 nor
    the division of line 73 can fail. *)
Theorem df_rows_benchmarked (f : Form) :
  map fst (df (kpis f)) =
    ["Margem Bruta"; "Margem EBITDA"; "Margem Líquida"; "ROE"; "ROA";
     "Dívida/PL"; "Liquidez Corrente"] /\
  NoDup (map fst (df (kpis f))) /\
  forall i row, In (i, row) (df (kpis f)) ->
    Dict.get (kpis f) i = Some (Valor row) /\
    exists b, Benchmark row = Some b /\ 0 < b.
Proof.
  split; [reflexivity |]. split.
  - change (map fst (df (kpis f))) with
      ["Margem Bruta"; "Margem EBITDA"; "Margem Líquida"; "ROE"; "ROA";
       "Dívida/PL"; "Liquidez Corrente"].
    repeat constructor; simpl; intros H;
      repeat (destruct H as [H | H]; [discriminate H |]); exact H.
  - intros i row Hin. apply in_df in Hin. destruct Hin as (v & Hin & ->).
    simpl. rewrite kpis_items in Hin. simpl in Hin.
    repeat (destruct Hin as [E | Hin];
            [ injection E as <- <-;
              split; [reflexivity | eexists; split; reflexivity] |]).
    contradiction.
Qed.



(** X3: a company's figures are never more than 100 percent below a benchmark:
    for a form with non-negative fields every defined deviation is at least
    -100. *)
Theorem deviation_lower_bound (f : Form) (i : string) (row : Row) (dv : Q) :
  nonneg f -> In (i, row) (df (kpis f)) -> Desvio row = Some dv ->
  -100 <= dv.
Proof.
  intros Hf Hin Hdv. apply in_df in Hin. destruct Hin as (v & Hin & ->).
  cbn [Desvio] in Hdv.
  destruct v as [v |]; [| discriminate Hdv].
  pose proof (kpis_values_nonneg f i v Hf Hin) as Hv.
  destruct (Dict.get benchmarks i) as [b |] eqn:Hb; [| discriminate Hdv].
  cbn [cell1 cell2] in Hdv.
  apply benchmarks_pos in Hb. injection Hdv as <-.
  assert (Hq : (v - b) / b * b == v - b) by (apply div_mul_cancel, Hb).
  revert Hq. generalize ((v - b) / b). intros q Hq.
  assert (H1 : -1 * b <= q * b) by lra.
  apply Qmult_le_r in H1; lra.
Qed.

Lemma deviation_lower_bound_witness :
  nonneg form_sample /\ -100 <= (120 / 2000 - 0.07) / 0.07 * 100.
Proof.
  assert (N : nonneg form_sample)
    by (unfold nonneg; simpl; repeat split; discriminate).
  split; [exact N |].
  apply (deviation_lower_bound form_sample "ROA"
           (mkRow (Some (120 / 2000)) (Some 0.07)
                  (Some ((120 / 2000 - 0.07) / 0.07 * 100))
                  (Some (120 / 2000 * 100)))).
  - exact N.
  - do 4 right. left. reflexivity.
  - reflexivity.
Defined.

(** * More on the health score *)

Lemma not_in_eqb (k k' : string) (l : list string) :
  ~ In k l -> In k' l -> String.eqb k k' = false.
Proof.
  intros Hk Hk'. destruct (String.eqb k k') eqn:E; [| reflexivity].
  apply String.eqb_eq in E. subst k'. contradiction.
Qed.

(** X4: the score reads five keys only: assigning any value, or [None], to any
    other key of the mapping (such as the gross margin or ROA) leaves the
    score, or its failure, as it was. *)
Theorem score_ignores_other_keys
  (d : Dict.t (option Q)) (k : string) (x : option Q) :
  ~ In k scored_keys -> score (Dict.set d k x) = score d.
Proof.
  intros Hk. unfold score. rewrite !get_set.
  rewrite !(not_in_eqb k _ scored_keys Hk) by (simpl; tauto).
  reflexivity.
Qed.

Lemma score_ignores_other_keys_witness :
  ~ In "ROA" scored_keys /\
  score (Dict.set (kpis form_sample) "ROA" None) = score (kpis form_sample).
Proof.
  assert (H : ~ In "ROA" scored_keys).
  { simpl. intros H.
    repeat (destruct H as [H | H]; [discriminate H |]). exact H. }
  split; [exact H |].
  apply (score_ignores_other_keys (kpis form_sample) "ROA" None H).
Defined.

(** X5: the score fails (a [KeyError]) exactly when the mapping lacks one of the
    five keys it reads; on the mapping of a form it never does. *)
Theorem score_key_error (d : Dict.t (option Q)) :
  (score d = None <->
   exists k, In k scored_keys /\ Dict.get d k = None) /\
  (forall f, score (kpis f) <> None).
Proof.
  split.
  - unfold score, bind, scored_keys. split.
    + intros H.
      destruct (Dict.get d "Margem EBITDA") eqn:E1;
        [| exists "Margem EBITDA"; simpl; tauto].
      destruct (Dict.get d "Margem Líquida") eqn:E2;
        [| exists "Margem Líquida"; simpl; tauto].
      destruct (Dict.get d "ROE") eqn:E3; [| exists "ROE"; simpl; tauto].
      destruct (Dict.get d "Dívida/PL") eqn:E4;
        [| exists "Dívida/PL"; simpl; tauto].
      destruct (Dict.get d "Liquidez Corrente") eqn:E5;
        [| exists "Liquidez Corrente"; simpl; tauto].
      discriminate H.
    + intros (k & Hk & E). simpl in Hk.
      repeat (destruct Hk as [<- | Hk];
              [ rewrite E;
                repeat match goal with
                       | |- context [match Dict.get d ?key with _ => _ end] =>
                           destruct (Dict.get d key)
                       end; reflexivity |]).
      contradiction.
  - intros f. destruct (kpis_scored f) as (He & Hn & Hr & Hp & Hl).
    rewrite (score_values _ _ _ _ _ _ He Hn Hr Hp Hl). discriminate.
Qed.

Lemma kpis_normalized_range (f : Form) :
  nonneg f ->
  0 <= normalize (if truthy (receita f)
                  then Some (ebitda f / receita f) else None) 0.2 0.4 <= 1 /\
  0 <= normalize (if truthy (receita f)
                  then Some (lucro_liquido f / receita f) else None) 0.1 0.2 <= 1 /\
  0 <= normalize (if truthy (patrimonio_liquido f)
                  then Some (lucro_liquido f / patrimonio_liquido f)
                  else None) 0.15 0.3 <= 1 /\
  0 <= normalize (if truthy (patrimonio_liquido f)
                  then Some (divida_liquida f / patrimonio_liquido f)
                  else None) 1 3 <= 1 /\
  0 <= normalize (if truthy (ativo_circ f) && truthy (passivo_circ f)
                  then Some (ativo_circ f / passivo_circ f) else None) 1.5 3 <= 1.
Proof.
  intros (Hrec & _ & Heb & Hll & _ & _ & Hpl & Hdl & Hac & Hpc).
  repeat match goal with |- _ /\ (_ /\ _) => split end;
    try split;
    apply normalize_range; try reflexivity;
    intros x; apply ratio_nonneg; auto;
    intros E; apply andb_true_iff in E; tauto.
Qed.



(** X7: without equity ROE earns nothing and the undefined debt-to-equity earns
    its full 20 points: a form with non-negative fields and zero equity
    scores between 20 and 75, so it never gets the excellent diagnosis. *)
Theorem zero_equity_bounds (f : Form) :
  nonneg f -> patrimonio_liquido f == 0 ->
  exists s, score (kpis f) = Some s /\ 20 <= s <= 75 /\
    diagnosis_recommendation s <> (diagnosis_excelente, recommendation_excelente).
Proof.
  intros Hf Hz.
  destruct (kpis_scored f) as (He & Hn & Hr & Hp & Hl).
  destruct (kpis_normalized_range f Hf) as (B1 & B2 & _ & _ & B5).
  apply truthy_false in Hz. rewrite Hz in Hr, Hp.
  eexists. split; [apply (score_values _ _ _ _ _ _ He Hn Hr Hp Hl) |].
  change (normalize None 0.15 0.3) with 0.
  change (normalize None 1 3) with 0.
  match goal with |- 20 <= ?t <= 75 /\ _ => assert (Hs : 20 <= t <= 75) end.
  { revert B1 B2 B5.
    generalize
      (normalize (if truthy (receita f)
                  then Some (ebitda f / receita f) else None) 0.2 0.4),
      (normalize (if truthy (receita f)
                  then Some (lucro_liquido f / receita f) else None) 0.1 0.2),
      (normalize (if truthy (ativo_circ f) && truthy (passivo_circ f)
                  then Some (ativo_circ f / passivo_circ f) else None) 1.5 3).
    intros. lra. }
  split; [exact Hs |].
  match goal with |- diagnosis_recommendation ?t <> _ =>
    revert Hs; generalize t end.
  intros s Hs.
  intros E. apply (proj1 (diagnosis_bands s)) in E. lra.
Qed.

Lemma zero_equity_bounds_witness :
  nonneg (mkForm "" 1000 450 250 120 2000 2000 0 700 500 300) /\
  exists s,
    score (kpis (mkForm "" 1000 450 250 120 2000 2000 0 700 500 300)) = Some s /\
    20 <= s <= 75 /\
    diagnosis_recommendation s <> (diagnosis_excelente, recommendation_excelente).
Proof.
  assert (N : nonneg (mkForm "" 1000 450 250 120 2000 2000 0 700 500 300))
    by (unfold nonneg; simpl; repeat split; discriminate).
  split; [exact N |].
  apply (zero_equity_bounds _ N). reflexivity.
Defined.

Lemma ideal_nonzero (ideal : Q) : 0 < ideal -> Qeq_bool ideal 0 = false.
Proof.
  intros H. apply not_true_iff_false. intros E. apply Qeq_bool_iff in E.
  rewrite E in H. exact (Qlt_irrefl 0 H).
Qed.

Lemma ratio_ge (a r c : Q) : 0 < r -> (c <= a / r <-> c * r <= a).
Proof.
  intros Hr. pose proof (div_mul_cancel a r Hr) as Hq.
  revert Hq. generalize (a / r). intros q Hq. split; intros H.
  - assert (H1 : c * r <= q * r) by (apply Qmult_le_r; assumption). lra.
  - assert (H1 : c * r <= q * r) by lra. apply Qmult_le_r in H1; assumption.
Qed.

Lemma normalize_full (a r ideal max_val : Q) :
  0 < ideal -> 0 < r ->
  (normalize (Some (a / r)) ideal max_val == 1 <-> ideal * r <= a).
Proof.
  intros Hi Hr. rewrite normalize_some by (apply ideal_nonzero, Hi).
  rewrite <- (ratio_ge a r ideal Hr).
  rewrite <- (Qmult_1_l ideal) at 2. rewrite <- (ratio_ge (a / r) ideal 1 Hi).
  generalize (a / r / ideal). intros q.
  min_cases; split; intros; lra.
Qed.

Lemma normalize_zero (a r max_val : Q) :
  0 <= a -> 0 < r ->
  (normalize (Some (a / r)) 1 max_val == 0 <-> a == 0).
Proof.
  intros Ha Hr. rewrite normalize_some by reflexivity.
  assert (H0 : 0 <= a / r) by (apply ratio_ge; lra).
  assert (Hz : a / r <= 0 <-> a <= 0).
  { split; intros H.
    - assert (H1 : a / r == 0) by lra.
      pose proof (div_mul_cancel a r Hr) as Hq. rewrite H1 in Hq. lra.
    - assert (H1 : a == 0) by lra. rewrite H1. unfold Qdiv. lra. }
  revert H0 Hz. generalize (a / r). intros q H0 Hz.
  qdiv_consts. min_cases; split; intros; lra.
Qed.



Lemma ratio_mono (a a' r : Q) : 0 <= r -> a <= a' -> a / r <= a' / r.
Proof.
  intros Hr Ha. unfold Qdiv. apply Qmult_le_compat_r; [exact Ha |].
  apply Qinv_le_0_compat, Hr.
Qed.

Lemma normalize_mono (c : bool) (a a' r ideal max_val : Q) :
  0 < ideal -> 0 <= r -> a <= a' ->
  normalize (if c then Some (a / r) else None) ideal max_val <=
  normalize (if c then Some (a' / r) else None) ideal max_val.
Proof.
  intros Hi Hr Ha. destruct c; [| apply Qle_refl].
  rewrite !normalize_some by (apply ideal_nonzero, Hi).
  assert (H : a / r / ideal <= a' / r / ideal).
  { apply ratio_mono; [lra | apply ratio_mono; assumption]. }
  revert H. generalize (a / r / ideal), (a' / r / ideal). intros q q' H.
  min_cases; lra.
Qed.

(** X9: the score in the figures themselves: with revenue and equity
    non-negative and everything else the same, more EBITDA, more net income
    and less net debt never give a lower score. *)
Theorem score_monotone_in_figures
  (name : string)
  (receita lucro_bruto ebitda ebitda' lucro_liquido lucro_liquido' : Q)
  (ativo_total passivo_total patrimonio_liquido : Q)
  (divida_liquida divida_liquida' ativo_circ passivo_circ : Q) :
  0 <= receita -> 0 <= patrimonio_liquido ->
  ebitda <= ebitda' -> lucro_liquido <= lucro_liquido' ->
  divida_liquida <= divida_liquida' ->
  exists s s',
    score (kpis (mkForm name receita lucro_bruto ebitda lucro_liquido
                        ativo_total passivo_total patrimonio_liquido
                        divida_liquida' ativo_circ passivo_circ)) = Some s /\
    score (kpis (mkForm name receita lucro_bruto ebitda' lucro_liquido'
                        ativo_total passivo_total patrimonio_liquido
                        divida_liquida ativo_circ passivo_circ)) = Some s' /\
    s <= s'.
Proof.
  intros Hr Hp He Hl Hd.
  match goal with
  | |- exists s s', score (kpis ?f1) = _ /\ score (kpis ?f2) = _ /\ _ =>
      destruct (kpis_scored f1) as (A1 & A2 & A3 & A4 & A5);
      destruct (kpis_scored f2) as (B1 & B2 & B3 & B4 & B5)
  end.
  do 2 eexists.
  split; [apply (score_values _ _ _ _ _ _ A1 A2 A3 A4 A5) |].
  split; [apply (score_values _ _ _ _ _ _ B1 B2 B3 B4 B5) |].
  clear A1 A2 A3 A4 A5 B1 B2 B3 B4 B5. simpl.
  pose proof (normalize_mono (truthy receita) ebitda ebitda' receita
                0.2 0.4 eq_refl Hr He) as M1.
  pose proof (normalize_mono (truthy receita) lucro_liquido lucro_liquido'
                receita 0.1 0.2 eq_refl Hr Hl) as M2.
  pose proof (normalize_mono (truthy patrimonio_liquido) lucro_liquido
                lucro_liquido' patrimonio_liquido 0.15 0.3 eq_refl Hp Hl) as M3.
  pose proof (normalize_mono (truthy patrimonio_liquido) divida_liquida
                divida_liquida' patrimonio_liquido 1 3 eq_refl Hp Hd) as M4.
  revert M1 M2 M3 M4.
  generalize
    (normalize (if truthy receita then Some (ebitda / receita) else None) 0.2 0.4),
    (normalize (if truthy receita then Some (ebitda' / receita) else None) 0.2 0.4),
    (normalize (if truthy receita
                then Some (lucro_liquido / receita) else None) 0.1 0.2),
    (normalize (if truthy receita
                then Some (lucro_liquido' / receita) else None) 0.1 0.2),
    (normalize (if truthy patrimonio_liquido
                then Some (lucro_liquido / patrimonio_liquido) else None) 0.15 0.3),
    (normalize (if truthy patrimonio_liquido
                then Some (lucro_liquido' / patrimonio_liquido) else None) 0.15 0.3),
    (normalize (if truthy patrimonio_liquido
                then Some (divida_liquida / patrimonio_liquido) else None) 1 3),
    (normalize (if truthy patrimonio_liquido
                then Some (divida_liquida' / patrimonio_liquido) else None) 1 3),
    (normalize (if truthy ativo_circ && truthy passivo_circ
                then Some (ativo_circ / passivo_circ) else None) 1.5 3).
  intros. lra.
Qed.

Lemma score_monotone_in_figures_witness :
  exists s s',
    score (kpis (mkForm "" 1000 450 150 80 2000 1200 800 900 500 300)) = Some s /\
    score (kpis (mkForm "" 1000 450 250 120 2000 1200 800 700 500 300)) = Some s' /\
    s <= s'.
Proof.
  apply (score_monotone_in_figures
           "" 1000 450 150 250 80 120 2000 1200 800 700 900 500 300);
    discriminate.
Defined.

(** * Independence of the unit *)

Lemma truthy_scale (c x : Q) : ~ c == 0 -> truthy (c * x) = truthy x.
Proof.
  intros Hc. destruct (truthy x) eqn:E.
  - apply truthy_true. apply truthy_true in E. intros H.
    apply Qmult_integral in H. tauto.
  - apply truthy_false. apply truthy_false in E. rewrite E. ring.
Qed.

Lemma ratio_scale (c : Q) (g : bool) (a r : Q) :
  ~ c == 0 -> (g = true -> ~ r == 0) ->
  cell_eq (if g then Some (a / r) else None)
          (if g then Some (c * a / (c * r)) else None).
Proof.
  intros Hc Hg. destruct g; simpl; [| exact I].
  field. split; [apply Hg; reflexivity | exact Hc].
Qed.

Lemma normalize_cell_eq (a b : option Q) (ideal max_val : Q) :
  cell_eq a b -> normalize a ideal max_val == normalize b ideal max_val.
Proof.
  destruct a as [x |], b as [y |]; simpl; try contradiction;
    [| reflexivity].
  intros H. destruct (negb (Qeq_bool ideal 0)); [| reflexivity].
  rewrite H. reflexivity.
Qed.

Lemma diagnosis_recommendation_compat (s s' : Q) :
  s == s' -> diagnosis_recommendation s = diagnosis_recommendation s'.
Proof.
  intros H. unfold diagnosis_recommendation.
  rewrite (Qleb_comp 80 80 (Qeq_refl 80) s s' H).
  rewrite (Qleb_comp 60 60 (Qeq_refl 60) s s' H).
  rewrite (Qleb_comp 40 40 (Qeq_refl 40) s s' H).
  reflexivity.
Qed.

Lemma Qltb_compat (a a' b b' : Q) :
  a == a' -> b == b' -> Qltb a b = Qltb a' b'.
Proof.
  intros Ha Hb. unfold Qltb. rewrite (Qleb_comp b b' Hb a a' Ha). reflexivity.
Qed.

Lemma round_half_even_compat (x y : Q) :
  x == y -> round_half_even x = round_half_even y.
Proof.
  intros H. unfold round_half_even.
  rewrite (Qfloor_comp x y H).
  assert (E : Qcompare (x - inject_Z (Qfloor y)) (1 # 2) =
              Qcompare (y - inject_Z (Qfloor y)) (1 # 2))
    by (rewrite H; reflexivity).
  rewrite E. reflexivity.
Qed.

Lemma format_1f_compat (x y : Q) : x == y -> format_1f x = format_1f y.
Proof.
  intros H. unfold format_1f.
  rewrite (Qltb_compat x y 0 0 H (Qeq_refl 0)).
  rewrite (round_half_even_compat (Qabs x * 10) (Qabs y * 10))
    by (rewrite H; reflexivity).
  reflexivity.
Qed.

Lemma bullet_cell_eq (i : string) (v v' : option Q) :
  cell_eq v v' ->
  map bullet_text (filter crosses_threshold (df [(i, v)])) =
  map bullet_text (filter crosses_threshold (df [(i, v')])).
Proof.
  intros Hv. unfold df. cbn [map].
  destruct (Dict.get benchmarks i) as [b |];
    destruct v as [x |], v' as [y |]; simpl in Hv; try contradiction;
    try reflexivity.
  cbn [cell1 cell2 filter].
  assert (E : (x - b) / b * 100 == (y - b) / b * 100)
    by (rewrite Hv; reflexivity).
  revert E. generalize ((x - b) / b * 100), ((y - b) / b * 100).
  intros dx dy E.
  unfold crosses_threshold. cbn [snd Desvio].
  rewrite (Qltb_compat 10 10 dx dy (Qeq_refl 10) E).
  rewrite (Qltb_compat dx dy (-10) (-10) E (Qeq_refl (-10))).
  destruct (Qltb 10 dy || Qltb dy (-10)); cbn [map]; [| reflexivity].
  unfold bullet_text. cbn [fst snd Desvio].
  rewrite (Qltb_compat 10 10 dx dy (Qeq_refl 10) E).
  rewrite (format_1f_compat dx dy E). reflexivity.
Qed.

Lemma bullets_cell_eq (d d' : Dict.t (option Q)) :
  Forall2 (fun kv kv' : string * option Q =>
             fst kv = fst kv' /\ cell_eq (snd kv) (snd kv')) d d' ->
  map bullet_text (filter crosses_threshold (df d)) =
  map bullet_text (filter crosses_threshold (df d')).
Proof.
  induction 1 as [| [i v] [i' v'] d d' [Hi Hv] _ IH]; [reflexivity |].
  simpl in Hi, Hv. subst i'.
  change (df ((i, v) :: d)) with (df [(i, v)] ++ df d)%list.
  change (df ((i, v') :: d')) with (df [(i, v')] ++ df d')%list.
  rewrite !filter_app, !map_app, IH, (bullet_cell_eq i v v' Hv).
  reflexivity.
Qed.

Lemma kpis_scale (c : Q) (f : Form) :
  ~ c == 0 ->
  Forall2 (fun kv kv' : string * option Q =>
             fst kv = fst kv' /\ cell_eq (snd kv) (snd kv'))
          (kpis f) (kpis (scale c f)).
Proof.
  intros Hc. rewrite !kpis_items. unfold scale. cbn [receita lucro_bruto
    ebitda lucro_liquido ativo_total patrimonio_liquido divida_liquida
    ativo_circ passivo_circ].
  rewrite !(truthy_scale c) by exact Hc.
  repeat (constructor; [split; [reflexivity |]; cbn [snd];
                        apply ratio_scale; [exact Hc |];
                        intros E; try apply andb_true_iff in E;
                        apply truthy_true; tauto |]).
  constructor.
Qed.



(** * The radar chart data *)

Lemma closed_length {A : Type} (l : list A) :
  List.length (l ++ firstn 1 l) =
  match l with [] => 0%nat | _ :: _ => S (List.length l) end.
Proof.
  destruct l as [| a l]; [reflexivity |].
  rewrite length_app. simpl. rewrite Nat.add_1_r. reflexivity.
Qed.

Lemma closed_last {A : Type} (l : list A) (x : A) :
  last (l ++ firstn 1 l) x = hd x (l ++ firstn 1 l).
Proof.
  destruct l as [| a l]; [reflexivity |].
  cbn [firstn]. rewrite last_last. reflexivity.
Qed.

Lemma closed_removelast {A : Type} (l : list A) :
  removelast (l ++ firstn 1 l) = l.
Proof.
  destruct l as [| a l]; [reflexivity |].
  cbn [firstn]. apply removelast_last.
Qed.

Lemma closed_nth {A : Type} (l : list A) (k : nat) (x : A) :
  (k < List.length l)%nat -> nth k (l ++ firstn 1 l) x = nth k l x.
Proof. intros H. apply app_nth1, H. Qed.

(** X11: the three series of the radar chart always fit one another: for any
    mapping, the values, the benchmark values and the angles have the same
    length (one more than the number of labels, or zero for an empty mapping,
    where no division by the number of labels takes place), each series ends
    with its first element, which closes the polygon, and dropping the last
    angle leaves exactly one tick per label. *)
Theorem radar_series_fit (kpis : Dict.t (option Q)) :
  List.length (values kpis) = List.length (angles (labels kpis)) /\
  List.length (benchmark_values (labels kpis)) =
    List.length (angles (labels kpis)) /\
  List.length (angles (labels kpis)) =
    match kpis with [] => 0%nat | _ :: _ => S (List.length (labels kpis)) end /\
  last (values kpis) 0 = hd 0 (values kpis) /\
  last (benchmark_values (labels kpis)) 0 =
    hd 0 (benchmark_values (labels kpis)) /\
  last (angles (labels kpis)) 0 = hd 0 (angles (labels kpis)) /\
  List.length (xticks (angles (labels kpis))) = List.length (labels kpis) /\
  xticks (angles (labels kpis)) =
    map (angle (List.length (labels kpis))) (seq 0 (List.length (labels kpis))).
Proof.
  unfold values, benchmark_values, angles, xticks, labels, Dict.keys.
  rewrite !closed_length, !closed_last, !closed_removelast.
  rewrite !length_map, length_seq.
  destruct kpis as [| kv d]; repeat split; reflexivity.
Qed.

Lemma angle_bounds (n k : nat) :
  (k < n)%nat ->
  angle n k == inject_Z (Z.of_nat k) * (2 * 3.14159) / inject_Z (Z.of_nat n) /\
  0 <= angle n k < 2 * 3.14159.
Proof.
  intros Hk. unfold angle.
  assert (Hn : 0 < inject_Z (Z.of_nat n)).
  { rewrite <- (Zlt_Qlt 0). lia. }
  assert (H0 : 0 <= inject_Z (Z.of_nat k)).
  { rewrite <- (Zle_Qle 0). lia. }
  assert (H1 : inject_Z (Z.of_nat k) < inject_Z (Z.of_nat n)).
  { rewrite <- Zlt_Qlt. lia. }
  split.
  - field. intros E. rewrite E in Hn. exact (Qlt_irrefl 0 Hn).
  - assert (Hq : 0 <= inject_Z (Z.of_nat k) / inject_Z (Z.of_nat n))
      by (apply ratio_ge; lra).
    assert (Hq1 : inject_Z (Z.of_nat k) / inject_Z (Z.of_nat n) < 1).
    { apply Qlt_shift_div_r; lra. }
    revert Hq Hq1.
    generalize (inject_Z (Z.of_nat k) / inject_Z (Z.of_nat n)).
    intros q Hq Hq1. split; lra.
Qed.

Lemma angle_increasing (n k k' : nat) :
  (k < k')%nat -> (k' < n)%nat -> angle n k < angle n k'.
Proof.
  intros Hk Hk'. unfold angle.
  assert (Hn : 0 < inject_Z (Z.of_nat n)).
  { rewrite <- (Zlt_Qlt 0). lia. }
  assert (H1 : inject_Z (Z.of_nat k) < inject_Z (Z.of_nat k')).
  { rewrite <- Zlt_Qlt. lia. }
  pose proof (div_mul_cancel (inject_Z (Z.of_nat k)) _ Hn) as E.
  pose proof (div_mul_cancel (inject_Z (Z.of_nat k')) _ Hn) as E'.
  revert E E'.
  generalize (inject_Z (Z.of_nat k) / inject_Z (Z.of_nat n)),
             (inject_Z (Z.of_nat k') / inject_Z (Z.of_nat n)).
  intros q q' E E'.
  assert (H : q * inject_Z (Z.of_nat n) < q' * inject_Z (Z.of_nat n)) by lra.
  apply Qmult_lt_r in H; lra.
Qed.

Lemma nth_angles (labels : list string) (k : nat) :
  (k < List.length labels)%nat ->
  nth k (angles labels) 0 = angle (List.length labels) k.
Proof.
  intros Hk. unfold angles.
  rewrite closed_nth by (rewrite length_map, length_seq; exact Hk).
  rewrite (nth_indep _ 0 (angle (List.length labels) 0%nat))
    by (rewrite length_map, length_seq; exact Hk).
  rewrite map_nth, seq_nth by exact Hk. reflexivity.
Qed.

(** X12: the angles of the labels are evenly spaced over one turn: the angle of
    label number [k] is [k] times [2 * 3.14159] over the number of labels,
    it lies in [0, 2 * 3.14159), and a later label has a strictly larger
    angle; in particular the first angle, which also closes the series, is
    0. *)
Theorem angles_evenly_spaced (labels : list string) (k k' : nat) :
  (k <= k')%nat -> (k' < List.length labels)%nat ->
  nth k (angles labels) 0 ==
    inject_Z (Z.of_nat k) * (2 * 3.14159) /
    inject_Z (Z.of_nat (List.length labels)) /\
  0 <= nth k (angles labels) 0 < 2 * 3.14159 /\
  ((k < k')%nat -> nth k (angles labels) 0 < nth k' (angles labels) 0) /\
  hd 0 (angles labels) == 0 /\
  last (angles labels) 0 == 0.
Proof.
  intros Hk Hk'.
  assert (Hk0 : (k < List.length labels)%nat) by lia.
  assert (Hpos : (0 < List.length labels)%nat) by lia.
  rewrite (nth_angles labels k Hk0).
  destruct (angle_bounds _ _ Hk0) as [E B].
  split; [exact E |]. split; [exact B |]. split.
  - intros Hlt. rewrite (nth_angles labels k' Hk').
    apply angle_increasing; assumption.
  - assert (Hh : hd 0 (angles labels) == 0).
    { clear - Hpos. destruct labels as [| l ls]; [inversion Hpos |].
      unfold angles. cbn [List.length seq map app hd]. unfold angle.
      change (inject_Z (Z.of_nat 0)) with 0. unfold Qdiv. ring. }
    split; [exact Hh |].
    unfold angles at 1. rewrite closed_last. exact Hh.
Qed.

Lemma angles_evenly_spaced_witness :
  nth 2 (angles (labels (kpis form_sample))) 0 ==
    inject_Z 2 * (2 * 3.14159) / inject_Z 7 /\
  nth 2 (angles (labels (kpis form_sample))) 0 <
    nth 5 (angles (labels (kpis form_sample))) 0.
Proof.
  destruct (angles_evenly_spaced (labels (kpis form_sample)) 2 5)
    as (E & _ & Hlt & _).
  - apply Nat.leb_le. reflexivity.
  - apply Nat.ltb_lt. reflexivity.
  - split; [exact E |]. apply Hlt. apply Nat.ltb_lt. reflexivity.
Defined.



(** * The report paragraphs *)

Lemma string_app_assoc (a b c : string) : (a ++ b) ++ c = a ++ (b ++ c).
Proof.
  induction a as [| x a IH]; simpl; [reflexivity | now rewrite IH].
Qed.

Lemma round_half_even_near (x : Q) :
  Qabs (x - inject_Z (round_half_even x)) <= 1 # 2.
Proof.
  unfold round_half_even.
  pose proof (Qfloor_le x) as Hlo. pose proof (Qlt_floor x) as Hhi.
  rewrite inject_Z_plus in Hhi. change (inject_Z 1) with 1 in Hhi.
  apply Qabs_Qle_condition.
  destruct (Qcompare (x - inject_Z (Qfloor x)) (1 # 2)) eqn:E.
  - apply Qeq_alt in E.
    destruct (Z.even (Qfloor x));
      rewrite ?inject_Z_plus; change (inject_Z 1) with 1; split; lra.
  - apply Qlt_alt in E. split; lra.
  - apply Qgt_alt in E.
    rewrite inject_Z_plus. change (inject_Z 1) with 1. split; lra.
Qed.

Lemma round_half_even_range (x : Q) (lo hi : Z) :
  inject_Z lo <= x <= inject_Z hi ->
  (lo <= round_half_even x <= hi)%Z.
Proof.
  intros [Hlo Hhi].
  pose proof (round_half_even_near x) as H.
  apply Qabs_Qle_condition in H. destruct H as [H1 H2].
  split.
  - assert (H : inject_Z (lo - 1) < inject_Z (round_half_even x)).
    { replace (lo - 1)%Z with (lo + -1)%Z by lia.
      rewrite inject_Z_plus. change (inject_Z (-1)) with (-1). lra. }
    rewrite <- Zlt_Qlt in H. lia.
  - assert (H : inject_Z (round_half_even x) < inject_Z (hi + 1)).
    { rewrite inject_Z_plus. change (inject_Z 1) with 1. lra. }
    rewrite <- Zlt_Qlt in H. lia.
Qed.

(** X14: the score line of the report: for a form with non-negative fields it
    shows, after the heading, a number of tenths between 0.0 and 100.0, with
    no sign, one digit after the point, within 0.05 of the score, followed
    by "/100". *)
Theorem score_paragraph_range (f : Form) :
  nonneg f ->
  exists s t,
    score (kpis f) = Some s /\
    (0 <= t <= 1000)%Z /\
    Qabs (s * 10 - inject_Z t) <= 1 # 2 /\
    score_paragraph s =
      "<b>Índice de Saúde Financeira:</b> " ++
      digits (t / 10) ++ "." ++ digits (t mod 10) ++ "/100" /\
    exists c, digits (t mod 10) = String c EmptyString.
Proof.
  intros Hf.
  destruct (kpis_scored f) as (He & Hn & Hr & Hp & Hl).
  destruct (kpis_normalized_range f Hf) as (B1 & B2 & B3 & B4 & B5).
  pose proof (score_values _ _ _ _ _ _ He Hn Hr Hp Hl) as Hs.
  match type of Hs with _ = Some ?v => set (s := v) in * end.
  assert (Hrange : 0 <= s <= 100).
  { unfold s. revert B1 B2 B3 B4 B5.
    generalize
      (normalize (if truthy (receita f)
                  then Some (ebitda f / receita f) else None) 0.2 0.4),
      (normalize (if truthy (receita f)
                  then Some (lucro_liquido f / receita f) else None) 0.1 0.2),
      (normalize (if truthy (patrimonio_liquido f)
                  then Some (lucro_liquido f / patrimonio_liquido f)
                  else None) 0.15 0.3),
      (normalize (if truthy (patrimonio_liquido f)
                  then Some (divida_liquida f / patrimonio_liquido f)
                  else None) 1 3),
      (normalize (if truthy (ativo_circ f) && truthy (passivo_circ f)
                  then Some (ativo_circ f / passivo_circ f) else None) 1.5 3).
    intros. lra. }
  clearbody s.
  exists s, (round_half_even (Qabs s * 10)).
  assert (Habs : Qabs s == s) by (apply Qabs_pos; lra).
  split; [exact Hs |]. split; [| split; [| split]].
  - apply round_half_even_range. rewrite Habs.
    change (inject_Z 0) with 0. change (inject_Z 1000) with 1000. lra.
  - pose proof (round_half_even_near (Qabs s * 10)) as H.
    rewrite <- Habs at 1. exact H.
  - unfold score_paragraph, format_1f.
    assert (Hsign : Qltb s 0 = false) by (apply Qltb_ge; lra).
    rewrite Hsign. change ("" ++ ?x) with x.
    rewrite !string_app_assoc. reflexivity.
  - apply digits_one. apply Z.mod_pos_bound. lia.
Qed.

Lemma score_paragraph_range_witness :
  nonneg form_sample /\
  exists s t,
    score (kpis form_sample) = Some s /\
    (0 <= t <= 1000)%Z /\
    Qabs (s * 10 - inject_Z t) <= 1 # 2 /\
    score_paragraph s =
      "<b>Índice de Saúde Financeira:</b> " ++
      digits (t / 10) ++ "." ++ digits (t mod 10) ++ "/100" /\
    exists c, digits (t mod 10) = String c EmptyString.
Proof.
  assert (N : nonneg form_sample)
    by (unfold nonneg; simpl; repeat split; discriminate).
  split; [exact N |]. apply (score_paragraph_range form_sample N).
Defined.

Lemma occurs_app (c : ascii) (a b : string) :
  occurs c (a ++ b) = occurs c a || occurs c b.
Proof.
  induction a as [| x a IH]; simpl; [reflexivity |].
  rewrite IH. apply orb_assoc.
Qed.

Lemma replace_app (c : ascii) (new a b : string) :
  replace c new (a ++ b) = replace c new a ++ replace c new b.
Proof.
  induction a as [| x a IH]; simpl; [reflexivity |].
  rewrite IH. destruct (Ascii.eqb x c); [| reflexivity].
  symmetry. apply string_app_assoc.
Qed.

Lemma replace_absent (c : ascii) (new s : string) :
  occurs c s = false -> replace c new s = s.
Proof.
  induction s as [| x s IH]; simpl; [reflexivity |].
  intros H. apply orb_false_iff in H. destruct H as [Hx Hs].
  rewrite Hx, (IH Hs). reflexivity.
Qed.

Lemma uint_no_newline (d : Decimal.uint) :
  occurs (ascii_of_nat 10) (NilEmpty.string_of_uint d) = false.
Proof. induction d; simpl; try reflexivity; exact IHd. Qed.

Lemma digits_no_newline (n : Z) : occurs (ascii_of_nat 10) (digits n) = false.
Proof.
  unfold digits, NilZero.string_of_uint.
  destruct (N.to_uint (Z.to_N n)) eqn:E; try reflexivity;
    rewrite <- E; apply uint_no_newline.
Qed.

Lemma format_1f_no_newline (x : Q) :
  occurs (ascii_of_nat 10) (format_1f x) = false.
Proof.
  unfold format_1f. rewrite !occurs_app, !digits_no_newline.
  destruct (Qltb x 0); reflexivity.
Qed.

Lemma bullet_no_newline (ir : string * Row) :
  occurs (ascii_of_nat 10) (fst ir) = false ->
  occurs (ascii_of_nat 10) (bullet_text ir) = false.
Proof.
  intros H. unfold bullet_text.
  destruct (Desvio (snd ir)) as [d |]; [| reflexivity].
  destruct (Qltb 10 d);
    rewrite !occurs_app, H, format_1f_no_newline; reflexivity.
Qed.

Lemma replace_join (l : list string) :
  (forall s, In s l -> occurs (ascii_of_nat 10) s = false) ->
  replace (ascii_of_nat 10) "<br/>" (join (newline ++ "• ") l) =
  join ("<br/>" ++ "• ") l.
Proof.
  induction l as [| s l IH]; intros H; [reflexivity |].
  assert (Hs : replace (ascii_of_nat 10) "<br/>" s = s)
    by (apply replace_absent, H; left; reflexivity).
  destruct l as [| s' l]; [exact Hs |].
  change (join (newline ++ "• ") (s :: s' :: l))
    with (s ++ (newline ++ "• ") ++ join (newline ++ "• ") (s' :: l)).
  change (join ("<br/>" ++ "• ") (s :: s' :: l))
    with (s ++ ("<br/>" ++ "• ") ++ join ("<br/>" ++ "• ") (s' :: l)).
  rewrite !replace_app, Hs, IH by (intros x Hx; apply H; right; exact Hx).
  reflexivity.
Qed.

(** X15: the insight paragraph of the report: when no row name contains a line
    break, turning the line breaks of the insight text into "<br/>" gives
    the fallback message unchanged, or the bullets one per line, each after
    a "• " and separated by "<br/>": no bullet is split and none is lost. *)
Theorem insights_paragraph_lines (df : DataFrame) :
  (forall ir, In ir df -> occurs (ascii_of_nat 10) (fst ir) = false) ->
  insights_paragraph (insights (comparisons df)) =
  match comparisons df with
  | [] => fallback_message
  | _ :: _ => "• " ++ join ("<br/>" ++ "• ") (comparisons df)
  end.
Proof.
  intros Hdf.
  assert (Hall : forall s, In s (comparisons df) ->
                           occurs (ascii_of_nat 10) s = false).
  { intros s Hs. unfold comparisons in Hs. rewrite comparisons_fold in Hs.
    cbn [app] in Hs. apply in_map_iff in Hs. destruct Hs as (ir & <- & Hin).
    apply filter_In in Hin. apply bullet_no_newline, Hdf, Hin. }
  unfold insights_paragraph, insights.
  destruct (comparisons df) as [| c cs]; [reflexivity |].
  rewrite replace_app, (replace_join (c :: cs) Hall). reflexivity.
Qed.

Lemma insights_paragraph_lines_witness :
  (forall ir, In ir (df (kpis form_sample)) ->
              occurs (ascii_of_nat 10) (fst ir) = false) /\
  insights_paragraph (insights (comparisons (df (kpis form_sample)))) =
  "• Margem Bruta acima do benchmark (+12.5%)<br/>" ++
  "• Margem EBITDA acima do benchmark (+25.0%)<br/>" ++
  "• Margem Líquida acima do benchmark (+20.0%)<br/>" ++
  "• ROA abaixo do benchmark (-14.3%)<br/>" ++
  "• Dívida/PL abaixo do benchmark (-12.5%)<br/>" ++
  "• Liquidez Corrente acima do benchmark (+11.1%)".
Proof.
  assert (H : forall ir, In ir (df (kpis form_sample)) ->
                         occurs (ascii_of_nat 10) (fst ir) = false).
  { intros ir Hin. simpl in Hin.
    repeat (destruct Hin as [<- | Hin]; [reflexivity |]). contradiction. }
  split; [exact H |].
  rewrite (insights_paragraph_lines (df (kpis form_sample)) H).
  reflexivity.
Defined.
